(** * Zettlr inter-process router: [source/main/zettlr-ipc.js]

    A shallow embedding of the [ZettlrIPC] class: the listeners that its
    constructor installs on the [config], [typo], [getCitation],
    [updateItems] and [message] channels, the push facade [global.ipc],
    and the methods [dispatch], [send], [handleEvent] and [runCall].
    The autoloader of the command modules, which builds the registry the
    router dispatches to, is embedded as well.

    JavaScript values are a small JSON-like datatype.  Code that can throw
    is written in a state-and-exception monad over a [World]: the world
    holds what the collaborators of the router answer when queried (the
    application object [this._app], the globals, Electron's focused window)
    and a chronological trace of every effect the router causes. *)

From Stdlib Require Import String List ZArith Bool.
Import ListNotations.
Open Scope string_scope.

(** ** JavaScript values *)

#[local] Set Warnings "-register-all".

Inductive value : Type :=
| VUndefined
| VNull
| VBool (b : bool)
| VNum (n : Z)
| VStr (s : string)
| VArr (items : list value)
| VObj (props : list (string * value)).

(** [v === 'lit'] for a string literal [lit]. *)
Definition is_str (v : value) (lit : string) : bool :=
  match v with
  | VStr s => String.eqb s lit
  | _ => false
  end.

(** ToBoolean, as used by [if (x)], [!x] and [x ? a : b]. *)
Definition truthy (v : value) : bool :=
  match v with
  | VUndefined | VNull => false
  | VBool b => b
  | VNum n => negb (Z.eqb n 0)
  | VStr s => negb (String.eqb s "")
  | VArr _ | VObj _ => true
  end.

Fixpoint lookup (k : string) (props : list (string * value)) : option value :=
  match props with
  | [] => None
  | (k', v) :: rest => if String.eqb k k' then Some v else lookup k rest
  end.

(** [obj.k = v] on the own properties of an object: an existing key keeps
    its place, a new key is added last. *)
Fixpoint assign (k : string) (v : value) (props : list (string * value))
  : list (string * value) :=
  match props with
  | [] => [(k, v)]
  | (k', v') :: rest =>
      if String.eqb k k' then (k, v) :: rest else (k', v') :: assign k v rest
  end.

(** ** Messages and effects *)

(** The envelope that travels on the [message] channel.  A field is [None]
    when the object has no such own property ([hasOwnProperty] is false).
    The correlation token is the property the source calls [cypher].
    [extra] holds any further properties, which the router never reads. *)
Record Message : Type := {
  command : option value;
  content : option value;
  cypher : option value;
  returnValue : option value;
  extra : list (string * value)
}.

(** What a channel send carries: a plain value or a message envelope. *)
Inductive payload : Type :=
| PValue (v : value)
| PMessage (m : Message).

Inductive exn : Type :=
| TypeError (what : string)      (* property access on null or undefined *)
| UnknownCommand (cmd : value)   (* the registry has no handler for [cmd] *)
| HandlerError (e : value).      (* thrown by a command handler itself *)

(** Everything the router does to the outside, in the order it happens. *)
Inductive effect : Type :=
| ConsoleError (key : string) (p : payload)  (* console.error(trans(key), p) *)
| ConsoleLog (key : string) (arg : value)    (* console.log(trans(key, arg)) *)
| Send (webContents : nat) (channel : string) (p : payload)
| StartDrag (webContents : nat) (item : value)
| Call (target method : string) (args : list value).

(** ** Collaborators *)

Record File : Type := {
  hash : Z;
  path : string;
  withContent : list (string * value);   (* file.withContent(), an object *)
  getMetadata : list (string * value);   (* file.getMetadata(), an object *)
  search : value -> value                (* file.search(terms) *)
}.

Record Dir : Type := {
  dir_hash : Z                           (* dir.hash *)
}.

Record Dictionary : Type := {
  check : value -> value;
  suggest : value -> value
}.

Record Citeproc : Type := {
  getCitation : value -> value;
  updateItems : value -> value;
  getIDs : value;
  makeBibliography : value
}.

(** The configuration store, reached as [global.config] and as
    [this._app.getConfig()]. *)
Record Config : Type := {
  config_get : value -> value;
  getConfig : list (string * value);
  getSupportedLangs : value;
  getDictionaries : value;
  getCustomCSS : value;
  getCustomCSSPath : value;
  setCustomCSS : value -> value
}.

(** The application object [this._app].  [window] is the web contents of
    [this._app.window.getWindow()], [None] when there is no window. *)
Record Zettlr : Type := {
  window : option nat;
  dict : option Dictionary;
  findFile : value -> option File;     (* findFile({ hash: h }) *)
  findExact : value -> option File;
  getCurrentFile : option File;
  getCurrentDir : option Dir;
  getPathDummies : list value;
  askFile : value -> value -> value;   (* getWindow().askFile(filters, multi) *)
  tags_get : value;                    (* getTags().get() *)
  getStats : value                     (* getStats().getStats() *)
}.

(** Queries are answered from the first five fields; commands issued to a
    collaborator are appended to [trace].  [focused] is
    [BrowserWindow.getFocusedWindow()], carrying [isMaximized()]. *)
Record World : Type := {
  app : Zettlr;
  config : Config;
  citeproc : option Citeproc;          (* global.citeproc *)
  global_tags : value;                 (* global.tags.get() *)
  focused : option bool;
  trace : list effect
}.

(** ** The monad of router code *)

Inductive outcome (A : Type) : Type :=
| Normal (a : A)
| Throw (e : exn).
Arguments Normal {A} a.
Arguments Throw {A} e.

Definition M (A : Type) : Type := World -> outcome A * World.

Definition ret {A} (a : A) : M A := fun w => (Normal a, w).

Definition throw {A} (e : exn) : M A := fun w => (Throw e, w).

Definition bind {A B} (m : M A) (k : A -> M B) : M B :=
  fun w =>
    match m w with
    | (Normal a, w') => k a w'
    | (Throw e, w') => (Throw e, w')
    end.

(** [try { m } catch (e) { h e }]. *)
Definition try_catch {A} (m : M A) (h : exn -> M A) : M A :=
  fun w =>
    match m w with
    | (Normal a, w') => (Normal a, w')
    | (Throw e, w') => h e w'
    end.

Definition gets {A} (f : World -> A) : M A := fun w => (Normal (f w), w).

Definition emit (e : effect) (w : World) : World :=
  {| app := app w;
     config := config w;
     citeproc := citeproc w;
     global_tags := global_tags w;
     focused := focused w;
     trace := trace w ++ [e] |}.

Definition perform (e : effect) : M unit := fun w => (Normal tt, emit e w).

Declare Scope js_scope.
Delimit Scope js_scope with js.
Notation "x <- m ;; k" := (bind m (fun x => k))
  (at level 100, m at next level, right associativity) : js_scope.
Notation "m ;; k" := (bind m (fun _ => k))
  (at level 100, right associativity) : js_scope.
Open Scope js_scope.

(** [v.k] for a property [k] that no primitive or array has: a
    [TypeError] on [undefined] and [null], the own property of an object,
    [undefined] otherwise. *)
Definition get_prop (v : value) (k : string) : M value :=
  match v with
  | VUndefined | VNull => throw (TypeError k)
  | VObj props =>
      ret match lookup k props with Some x => x | None => VUndefined end
  | _ => ret VUndefined
  end.

(** Member access on the result of a lookup that may be [null]. *)
Definition deref {A} (o : option A) (member : string) : M A :=
  match o with
  | Some f => ret f
  | None => throw (TypeError member)
  end.

(** ** [send] and the push facade *)

(** The object a chainable method returns. *)
Inductive ZettlrIPC : Type := this.

(** A parameter declared [content = {}]. *)
Definition or_empty (v : value) : value :=
  match v with
  | VUndefined => VObj []
  | _ => v
  end.

Definition push (cmd cnt : value) : Message :=
  {| command := Some cmd;
     content := Some cnt;
     cypher := None;
     returnValue := None;
     extra := [] |}.

Definition send (cmd : value) (cnt : value) : M ZettlrIPC :=
  win <- gets (fun w => window (app w)) ;;
  match win with
  | None => ret this (* Fail gracefully *)
  | Some sender =>
      perform (Send sender "message" (PMessage (push cmd (or_empty cnt)))) ;;
      ret this
  end.

Definition notify (msg : value) : M unit :=
  send (VStr "notify") msg ;; ret tt.

Definition notifyError (msg : value) : M unit :=
  send (VStr "notify-error") msg ;; ret tt.

Definition updateFile (file : File) : M unit :=
  send (VStr "file-replace")
       (VObj [("hash", VNum (hash file)); ("file", VObj (getMetadata file))]) ;;
  ret tt.

(** ** The synchronous channels *)

(** The [event] handed to a listener: where the message came from and,
    on a synchronous channel, the reply slot [event.returnValue]. *)
Record Event : Type := {
  sender : nat;
  sync_reply : option value
}.

Definition reply (event : Event) (v : value) : Event :=
  {| sender := sender event; sync_reply := Some v |}.

Record TypoQuery : Type := {
  type : value;
  term : value
}.

Definition config_listener (event : Event) (key : value) : M Event :=
  v <- gets (fun w => config_get (config w) key) ;;
  ret (reply event v).

Definition typo_listener (event : Event) (message : TypoQuery) : M Event :=
  if is_str (type message) "check" then
    d <- gets (fun w => dict (app w)) ;;
    ret (reply event match d with
                     | Some d => check d (term message)
                     | None => VStr "not-ready"
                     end)
  else if is_str (type message) "suggest" then
    d <- gets (fun w => dict (app w)) ;;
    ret (reply event match d with
                     | Some d => suggest d (term message)
                     | None => VArr []
                     end)
  else ret event.

Definition getCitation_listener (event : Event) (idList : value) : M Event :=
  c <- gets citeproc ;;
  c <- deref c "getCitation" ;;
  ret (reply event (getCitation c idList)).

Definition updateItems_listener (event : Event) (idList : value) : M Event :=
  c <- gets citeproc ;;
  c <- deref c "updateItems" ;;
  ret (reply event (updateItems c idList)).

(** ** The command registry *)

(** A command of the registry: the name it answers to and what running it
    does.  A handler may do anything to the world, and may throw. *)
Record Handler : Type := {
  name : string;
  run : value -> M value
}.

Definition call (target method : string) (args : list value) : M unit :=
  perform (Call target method args).

(** The window controls shared by [handleEvent] and [runCall]. *)
Definition win_maximise : M unit :=
  f <- gets focused ;;
  match f with
  | Some true => call "BrowserWindow" "unmaximize" []
  | Some false => call "BrowserWindow" "maximize" []
  | None => ret tt
  end.

Definition win_minimise : M unit :=
  f <- gets focused ;;
  match f with
  | Some _ => call "BrowserWindow" "minimize" []
  | None => ret tt
  end.

Definition win_close : M unit :=
  f <- gets focused ;;
  match f with
  | Some _ => call "BrowserWindow" "close" []
  | None => ret tt
  end.

(** [(x) ? x.hash : null] *)
Definition hash_or_null (h : option Z) : value :=
  match h with
  | Some h => VNum h
  | None => VNull
  end.

Definition unknown_command (cmd : value) : M unit :=
  perform (ConsoleLog "system.unknown_command" cmd).

(** ** The dispatcher and the [message] listener *)

(** [o.k] for an optional own property of an envelope. *)
Definition prop (o : option value) : value :=
  match o with
  | Some v => v
  | None => VUndefined
  end.

Definition set_content (arg : Message) (v : value) : Message :=
  {| command := command arg;
     content := Some v;
     cypher := cypher arg;
     returnValue := returnValue arg;
     extra := extra arg |}.

Definition set_returnValue (arg : Message) (v : value) : Message :=
  {| command := command arg;
     content := content arg;
     cypher := cypher arg;
     returnValue := Some v;
     extra := extra arg |}.

(** [arg.hasOwnProperty('cypher') && arg.cypher !== ''] *)
Definition has_cypher (arg : Message) : bool :=
  match cypher arg with
  | Some c => negb (is_str c "")
  | None => false
  end.

Section Router.

(** The commands loaded at startup, the JavaScript built-in [parseInt],
    and [__dirname]. *)
Variable registry : list Handler.
Variable parseInt : value -> value.
Variable dirname : string.

(** Modelled from the spec: [this._app.runCommand], which belongs to the
    application object and is not part of the two source files.  It
    resolves the command name against the registry and executes the
    matched handler with the content; a name that no handler answers to
    raises "unknown command". *)
Definition runCommand (cmd cnt : value) : M value :=
  match find (fun h => is_str cmd (name h)) registry with
  | Some h => run h cnt
  | None => throw (UnknownCommand cmd)
  end.

Definition get_paths : M unit :=
  dummies <- gets (fun w => getPathDummies (app w)) ;;
  send (VStr "paths-update") (VArr dummies) ;;
  file <- gets (fun w => getCurrentFile (app w)) ;;
  send (VStr "file-set-current") (hash_or_null (option_map hash file)) ;;
  dir <- gets (fun w => getCurrentDir (app w)) ;;
  send (VStr "dir-set-current") (hash_or_null (option_map dir_hash dir)) ;;
  file <- gets (fun w => getCurrentFile (app w)) ;;
  match file with
  | Some f => send (VStr "file-open") (VObj (withContent f)) ;; ret tt
  | None => ret tt
  end.

Definition file_search (cnt : value) : M unit :=
  h <- get_prop cnt "hash" ;;
  f <- gets (fun w => findFile (app w) h) ;;
  f <- deref f "search" ;;
  terms <- get_prop cnt "terms" ;;
  let result := search f terms in
  h <- get_prop cnt "hash" ;;
  send (VStr "file-search-result") (VObj [("hash", h); ("result", result)]) ;;
  ret tt.

Definition toggle (key : string) : M unit :=
  old <- gets (fun w => config_get (config w) (VStr key)) ;;
  call "global.config" "set" [VStr key; VBool (negb (truthy old))] ;;
  send (VStr "config-update") VUndefined ;;
  ret tt.

(** The [switch (cmd)] of [handleEvent]: the built-in event table. *)
Definition handleEvent_switch (cmd cnt : value) : M unit :=
  if is_str cmd "app-quit" then call "electron.app" "quit" []
  else if is_str cmd "win-maximise" then win_maximise
  else if is_str cmd "win-minimise" then win_minimise
  else if is_str cmd "win-close" then win_close
  else if is_str cmd "win-menu" then
    x <- get_prop cnt "x" ;;
    y <- get_prop cnt "y" ;;
    call "this._app.getWindow()" "popupMenu" [x; y]
  else if is_str cmd "get-paths" then get_paths
  else if is_str cmd "file-get-quicklook" then
    f <- gets (fun w => findFile (app w) cnt) ;;
    f <- deref f "withContent" ;;
    send (VStr "file-quicklook") (VObj (withContent f)) ;; ret tt
  else if is_str cmd "file-get" then call "this._app" "sendFile" [cnt]
  else if is_str cmd "dir-select" then call "this._app" "selectDir" [cnt]
  else if is_str cmd "file-modified" then call "this._app" "setModified" []
  else if is_str cmd "set-target" then call "global.targets" "set" [cnt]
  else if is_str cmd "dir-open" then call "this._app" "open" []
  else if is_str cmd "close-root" then call "this._app" "close" [cnt]
  else if is_str cmd "file-search" then file_search cnt
  else if is_str cmd "force-open" then
    open <- gets (fun w => findExact (app w) cnt) ;;
    match open with
    | Some f => call "this._app" "sendFile" [VNum (hash f)]
    | None => ret tt
    end
  else if is_str cmd "toggle-theme" then toggle "darkTheme"
  else if is_str cmd "toggle-snippets" then toggle "snippets"
  else if is_str cmd "get-preferences" then
    toSend <- gets (fun w => getConfig (config w)) ;;
    langs <- gets (fun w => getSupportedLangs (config w)) ;;
    let toSend := assign "supportedLangs" langs toSend in
    dicts <- gets (fun w => getDictionaries (config w)) ;;
    let toSend := assign "availableDicts" dicts toSend in
    send (VStr "preferences") (VObj toSend) ;; ret tt
  else if is_str cmd "get-pdf-preferences" then
    c <- gets (fun w => getConfig (config w)) ;;
    send (VStr "pdf-preferences") (VObj c) ;; ret tt
  else if is_str cmd "get-tags-preferences" then
    t <- gets (fun w => tags_get (app w)) ;;
    send (VStr "tags-preferences") t ;; ret tt
  else if is_str cmd "update-config" then
    call "this._app.getConfig()" "bulkSet" [cnt] ;;
    send (VStr "config-update") VUndefined ;;
    d <- gets (fun w => dict (app w)) ;;
    match d with
    | Some _ => call "this._app.dict" "reload" []
    | None => ret tt
    end
  else if is_str cmd "update-tags" then
    call "this._app.getTags()" "update" [cnt] ;;
    send (VStr "set-tags") cnt ;; ret tt
  else if is_str cmd "get-tags" then
    t <- gets (fun w => tags_get (app w)) ;;
    send (VStr "set-tags") t ;; ret tt
  else if is_str cmd "get-tags-database" then
    t <- gets global_tags ;;
    send (VStr "tags-database") t ;; ret tt
  else if is_str cmd "handle-drop" then
    call "this._app" "handleAddRoots" [cnt]
  else if is_str cmd "request-stats-data" then
    s <- gets (fun w => getStats (app w)) ;;
    send (VStr "stats-data") s ;; ret tt
  else if is_str cmd "citeproc-get-ids" then
    c <- gets citeproc ;;
    send (VStr "citeproc-ids")
         match c with Some c => getIDs c | None => VArr [] end ;;
    ret tt
  else if is_str cmd "citeproc-make-bibliography" then
    c <- gets citeproc ;;
    c <- deref c "makeBibliography" ;;
    send (VStr "citeproc-bibliography") (makeBibliography c) ;; ret tt
  else unknown_command cmd.

(** A command the registry ran is done; whatever [runCommand] throws is
    discarded and the switch takes over. *)
Definition handleEvent (cmd cnt : value) : M value :=
  try_catch (runCommand cmd cnt)
            (fun _ => handleEvent_switch cmd cnt ;; ret VUndefined).

Definition runCall (cmd arg : value) : M value :=
  if is_str cmd "win-maximise" then win_maximise ;; ret VUndefined
  else if is_str cmd "win-minimise" then win_minimise ;; ret VUndefined
  else if is_str cmd "win-close" then win_close ;; ret VUndefined
  else if is_str cmd "request-files" then
    filters <- get_prop arg "filters" ;;
    multiSel <- get_prop arg "multiSel" ;;
    call "this._app.getWindow()" "askFile" [filters; multiSel] ;;
    gets (fun w => askFile (app w) filters multiSel)
  else if is_str cmd "make-standalone" then
    call "this._app" "openQL" [arg] ;; ret (VBool true)
  else if is_str cmd "get-tags-database" then gets global_tags
  else if is_str cmd "get-custom-css" then
    gets (fun w => getCustomCSS (config w))
  else if is_str cmd "get-custom-css-path" then
    gets (fun w => getCustomCSSPath (config w))
  else if is_str cmd "set-custom-css" then
    call "this._app.getConfig()" "setCustomCSS" [arg] ;;
    gets (fun w => setCustomCSS (config w) arg)
  else unknown_command cmd ;; ret VNull.

Definition dispatch (arg : Message) : M unit :=
  let arg := match content arg with
             | Some _ => arg
             | None => set_content arg (VObj [])
             end in
  handleEvent (prop (command arg)) (prop (content arg)) ;; ret tt.

(** The listener on the [message] channel, with the two methods it
    calls on [this] left open. *)
Definition message_listener_with
    (runCall : value -> value -> M value) (dispatch : Message -> M unit)
    (event : Event) (arg : Message) : M unit :=
  match command arg with
  | None => perform (ConsoleError "system.no_command" (PMessage arg))
  | Some cmd =>
      if is_str cmd "file-drag-start" then
        h <- get_prop (prop (content arg)) "hash" ;;
        f <- gets (fun w => findFile (app w) (parseInt h)) ;;
        f <- deref f "path" ;;
        perform (StartDrag (sender event)
                   (VObj [("file", VStr (path f));
                          ("icon", VStr (dirname ++ "/assets/dragicon.png"))]))
      else if has_cypher arg then
        v <- runCall cmd (prop (content arg)) ;;
        perform (Send (sender event) "message"
                      (PMessage (set_returnValue arg v)))
      else if is_str cmd "ql-get-file" then
        f <- gets (fun w => findFile (app w) (prop (content arg))) ;;
        f <- deref f "withContent" ;;
        perform (Send (sender event) "file"
                      (PValue (VObj (withContent f))))
      else dispatch arg
  end.

Definition message_listener : Event -> Message -> M unit :=
  message_listener_with runCall dispatch.

End Router.

(** ** The two built-in tables and registry membership *)

(** The case labels of the [switch] in [handleEvent]. *)
Definition event_table : list string :=
  ["app-quit"; "win-maximise"; "win-minimise"; "win-close"; "win-menu";
   "get-paths"; "file-get-quicklook"; "file-get"; "dir-select";
   "file-modified"; "set-target"; "dir-open"; "close-root"; "file-search";
   "force-open"; "toggle-theme"; "toggle-snippets"; "get-preferences";
   "get-pdf-preferences"; "get-tags-preferences"; "update-config";
   "update-tags"; "get-tags"; "get-tags-database"; "handle-drop";
   "request-stats-data"; "citeproc-get-ids"; "citeproc-make-bibliography"].

(** The case labels of the [switch] in [runCall]. *)
Definition call_table : list string :=
  ["win-maximise"; "win-minimise"; "win-close"; "request-files";
   "make-standalone"; "get-tags-database"; "get-custom-css";
   "get-custom-css-path"; "set-custom-css"].

Definition in_table (cmd : value) (table : list string) : bool :=
  existsb (is_str cmd) table.

Definition responder (registry : list Handler) (cmd : value) : option Handler :=
  find (fun h => is_str cmd (name h)) registry.

(** [undefined] or [null]: the values whose properties cannot be read. *)
Definition nullish (v : value) : bool :=
  match v with
  | VUndefined | VNull => true
  | _ => false
  end.

(** The world after a sequence of effects. *)
Definition emit_all (es : list effect) (w : World) : World :=
  fold_left (fun w e => emit e w) es w.

(** ** The claims of the specification that the code does not meet,
       as the specification words them *)

(** A recognised command whose handler throws makes [handleEvent] fail
    with that error. *)
Definition handler_failure_propagates
    (registry : list Handler) (cmd cnt : value) (w : World) : Prop :=
  forall h e w',
    responder registry cmd = Some h ->
    run h cnt w = (Throw e, w') ->
    fst (handleEvent registry cmd cnt w) = Throw e.


(** The pushes [get-paths] is to produce, to the web contents [wc]. *)
Definition paths_pushes (wc : nat) (a : Zettlr) : list effect :=
  map (fun m => Send wc "message" (PMessage m))
      ([push (VStr "paths-update") (VArr (getPathDummies a));
        push (VStr "file-set-current")
             (hash_or_null (option_map hash (getCurrentFile a)));
        push (VStr "dir-set-current")
             (hash_or_null (option_map dir_hash (getCurrentDir a)))]
       ++ match getCurrentFile a with
          | Some f => [push (VStr "file-open") (VObj (withContent f))]
          | None => []
          end).

(** Every dispatch of the built-in [get-paths] produces those pushes. *)
Definition get_paths_always_pushes
    (registry : list Handler) (cnt : value) (w : World) : Prop :=
  responder registry (VStr "get-paths") = None ->
  exists wc,
    trace (snd (handleEvent registry (VStr "get-paths") cnt w)) =
    (trace w ++ paths_pushes wc (app w))%list.

(** ** Sample worlds *)

Module Sample.

Definition note : File :=
  {| hash := 42;
     path := "/notes/todo.md";
     withContent := [("hash", VNum 42); ("content", VStr "# To do")];
     getMetadata := [("hash", VNum 42); ("name", VStr "todo.md")];
     search := fun _ => VArr [] |}.

Definition folder : Dir := {| dir_hash := 7 |}.

Definition store : Config :=
  {| config_get := fun _ => VBool false;
     getConfig := [("darkTheme", VBool false)];
     getSupportedLangs := VArr [VStr "en-GB"];
     getDictionaries := VArr [];
     getCustomCSS := VStr "body { }";
     getCustomCSSPath := VStr "/config/custom.css";
     setCustomCSS := fun _ => VBool true |}.

(** An application with one file, which is open, and one window. *)
Definition zettlr : Zettlr :=
  {| window := Some 1%nat;
     dict := None;
     findFile := fun h => match h with
                          | VNum 42 => Some note
                          | _ => None
                          end;
     findExact := fun _ => None;
     getCurrentFile := Some note;
     getCurrentDir := Some folder;
     getPathDummies := [VStr "/notes"];
     askFile := fun _ _ => VArr [];
     tags_get := VArr [];
     getStats := VObj [] |}.

(** The same application before any window has been created. *)
Definition windowless : Zettlr :=
  {| window := None;
     dict := dict zettlr;
     findFile := findFile zettlr;
     findExact := findExact zettlr;
     getCurrentFile := getCurrentFile zettlr;
     getCurrentDir := getCurrentDir zettlr;
     getPathDummies := getPathDummies zettlr;
     askFile := askFile zettlr;
     tags_get := tags_get zettlr;
     getStats := getStats zettlr |}.

Definition world_of (a : Zettlr) : World :=
  {| app := a;
     config := store;
     citeproc := None;
     global_tags := VObj [];
     focused := None;
     trace := [] |}.

Definition world : World := world_of zettlr.
Definition early : World := world_of windowless.

(** [parseInt] on the values the samples pass to it. *)
Definition parseInt (v : value) : value :=
  match v with
  | VNum n => VNum n
  | _ => VUndefined
  end.

Definition dirname : string := "/app/source/main".

Definition renderer : Event := {| sender := 2; sync_reply := None |}.

Definition envelope (cmd : string) (cnt token : option value) : Message :=
  {| command := Some (VStr cmd);
     content := cnt;
     cypher := token;
     returnValue := None;
     extra := [] |}.

(** A registry whose only command, [dir-open], fails when run. *)
Definition failing : Handler :=
  {| name := "dir-open";
     run := fun _ => throw (HandlerError (VStr "cannot open")) |}.

End Sample.

(** ** What a computation may do *)

(** [m] only adds effects to the world, and each of them is allowed by
    [allowed], which may look at the application object. *)
Definition emits {A} (allowed : Zettlr -> effect -> bool) (m : M A) : Prop :=
  forall w, exists es,
    snd (m w) = emit_all es w /\ forallb (allowed (app w)) es = true.

(** [m] never throws. *)
Definition returns {A} (m : M A) : Prop :=
  forall w, exists a w', m w = (Normal a, w').

Definition is_send (e : effect) : bool :=
  match e with
  | Send _ _ _ => true
  | _ => false
  end.

Definition is_log (e : effect) : bool :=
  match e with
  | ConsoleLog _ _ => true
  | _ => false
  end.

(** Anything but a [console.log]. *)
Definition no_log (_ : Zettlr) (e : effect) : bool := negb (is_log e).

(** What [runCall] may do: call a collaborator, or log an unknown
    command. *)
Definition call_effect (_ : Zettlr) (e : effect) : bool :=
  match e with
  | Call _ _ _ => true
  | ConsoleLog key _ => String.eqb key "system.unknown_command"
  | _ => false
  end.

(** What the switch of [handleEvent] may do: call a collaborator, log an
    unknown command, or send a message envelope on the [message] channel
    of the active window. *)
Definition event_effect (a : Zettlr) (e : effect) : bool :=
  match e with
  | Call _ _ _ => true
  | ConsoleLog key _ => String.eqb key "system.unknown_command"
  | Send wc channel (PMessage _) =>
      match window a with
      | Some active => Nat.eqb wc active && String.eqb channel "message"
      | None => false
      end
  | _ => false
  end.

(** The built-in events that read a property of the content or use the
    result of a lookup without testing it. *)
Definition fallible_events : list string :=
  ["win-menu"; "file-get-quicklook"; "file-search";
   "citeproc-make-bibliography"].

Definition window_controls : list string :=
  ["win-maximise"; "win-minimise"; "win-close"].


(** ** The command autoloader *)

(** [/\.jsx?$/.test(elem)]: some position of [elem] is followed by
    exactly [.js] or [.jsx]. *)
Fixpoint is_script (elem : string) : bool :=
  String.eqb elem ".js" || String.eqb elem ".jsx" ||
  match elem with
  | EmptyString => false
  | String _ rest => is_script rest
  end.

(** [file === '_autoload.js' || file === 'zettlr-command.js'] *)
Definition is_builtin_module (file : string) : bool :=
  String.eqb file "_autoload.js" || String.eqb file "zettlr-command.js".

Section Autoload.

(** [instantiate file] stands for
    [new (require(path.join(__dirname, file)))(app)]. *)
Variable Command : Type.
Variable instantiate : string -> Command.

(** The [for (let file of dirs)] loop, [cmd] being the array built so
    far. *)
Fixpoint autoload_loop (dirs : list string) (cmd : list Command)
  : list Command :=
  match dirs with
  | [] => cmd
  | file :: rest =>
      if is_builtin_module file then autoload_loop rest cmd
      else autoload_loop rest (cmd ++ [instantiate file])
  end.

(** The exported function, applied to what [readDir(__dirname)] resolved
    to. *)
Definition autoload (listing : list string) : list Command :=
  let dirs := filter is_script listing in
  autoload_loop dirs [].

End Autoload.

(** ** Further sample data *)

Module Fixture.



Definition english : Dictionary :=
  {| check := fun _ => VBool true;
     suggest := fun _ => VArr [] |}.

Definition listing : list string :=
  ["_autoload.js"; "export.js"; "README.md"; "zettlr-command.js";
   "file-new.jsx"; "notes.json"].

End Fixture.

(** * Theorems *)

(** ** Laws of the monad *)

Lemma bind_normal {A B} (m : M A) (k : A -> M B) w a w' :
  m w = (Normal a, w') -> bind m k w = k a w'.
Proof. intros H. unfold bind. now rewrite H. Qed.

Lemma bind_throw {A B} (m : M A) (k : A -> M B) w e w' :
  m w = (Throw e, w') -> bind m k w = (Throw e, w').
Proof. intros H. unfold bind. now rewrite H. Qed.

Lemma trace_emit e w : trace (emit e w) = (trace w ++ [e])%list.
Proof. reflexivity. Qed.

Lemma app_emit e w : app (emit e w) = app w.
Proof. reflexivity. Qed.

(** ** [send] *)

Lemma send_without_window cmd cnt w :
  window (app w) = None -> send cmd cnt w = (Normal this, w).
Proof. intros H. unfold send, bind, gets. now rewrite H. Qed.

Lemma send_with_window cmd cnt w wc :
  window (app w) = Some wc ->
  send cmd cnt w =
  (Normal this, emit (Send wc "message" (PMessage (push cmd (or_empty cnt)))) w).
Proof. intros H. unfold send, bind, gets. now rewrite H. Qed.

(** C9. When there is no active window, [send] does nothing: the world,
    including the trace of effects, is left as it was, no error is raised,
    and the call returns the router object itself.  Being a total function
    it always returns. *)
Theorem send_no_window_is_noop (cmd cnt : value) (w : World) :
  window (app w) = None ->
  send cmd cnt w = (Normal this, w).
Proof. apply send_without_window. Qed.

Lemma send_no_window_is_noop_witness :
  window (app Sample.early) = None /\
  send (VStr "notify") (VStr "saved") Sample.early = (Normal this, Sample.early).
Proof.
  split; [reflexivity | apply send_no_window_is_noop; reflexivity].
Defined.

(** ** The [typo] channel *)

(** C10. A [typo] query whose [type] is neither ['check'] nor ['suggest']
    leaves the event as it was, so no reply value is set, and changes
    nothing in the world. *)
Theorem typo_other_type_untouched (event : Event) (message : TypoQuery) (w : World) :
  is_str (type message) "check" = false ->
  is_str (type message) "suggest" = false ->
  typo_listener event message w = (Normal event, w).
Proof.
  intros Hc Hs. unfold typo_listener. rewrite Hc, Hs. reflexivity.
Qed.

Lemma typo_other_type_untouched_witness :
  typo_listener Sample.renderer {| type := VStr "add"; term := VStr "teh" |}
                Sample.world
  = (Normal Sample.renderer, Sample.world).
Proof. apply typo_other_type_untouched; reflexivity. Defined.

(** The guarded half of the degradation policy: without a dictionary a
    check answers ['not-ready'] and a suggestion the empty list. *)
Lemma typo_check_not_ready event message w :
  is_str (type message) "check" = true ->
  dict (app w) = None ->
  typo_listener event message w = (Normal (reply event (VStr "not-ready")), w).
Proof.
  intros Hc Hd. unfold typo_listener, bind, gets. rewrite Hc, Hd. reflexivity.
Qed.

Lemma typo_suggest_empty event message w :
  is_str (type message) "check" = false ->
  is_str (type message) "suggest" = true ->
  dict (app w) = None ->
  typo_listener event message w = (Normal (reply event (VArr [])), w).
Proof.
  intros Hc Hs Hd. unfold typo_listener, bind, gets. rewrite Hc, Hs, Hd.
  reflexivity.
Qed.

(** ** The [message] listener *)

Section Listener.

Variable registry : list Handler.
Variable parseInt : value -> value.
Variable dirname : string.



(** C2. A [ql-get-file] message whose hash matches no file makes the
    listener throw a [TypeError]: the absent file is dereferenced.  The
    world is unchanged, so no [notify-error] is pushed. *)
Theorem quicklook_missing_file_throws
    (event : Event) (arg : Message) (w : World) :
  command arg = Some (VStr "ql-get-file") ->
  has_cypher arg = false ->
  findFile (app w) (prop (content arg)) = None ->
  message_listener registry parseInt dirname event arg w
  = (Throw (TypeError "withContent"), w).
Proof.
  intros Hc Hy Hf. unfold message_listener, message_listener_with.
  rewrite Hc, Hy. cbn. unfold bind, gets. rewrite Hf. reflexivity.
Qed.

(** The same defect on the other two lookups by hash. *)
Lemma drag_missing_file_throws event arg w h :
  command arg = Some (VStr "file-drag-start") ->
  get_prop (prop (content arg)) "hash" w = (Normal h, w) ->
  findFile (app w) (parseInt h) = None ->
  message_listener registry parseInt dirname event arg w
  = (Throw (TypeError "path"), w).
Proof.
  intros Hc Hh Hf. unfold message_listener, message_listener_with.
  rewrite Hc. cbn. rewrite (bind_normal _ _ _ _ _ Hh).
  unfold bind, gets. rewrite Hf. reflexivity.
Qed.

Lemma search_missing_file_throws cnt w h :
  get_prop cnt "hash" w = (Normal h, w) ->
  findFile (app w) h = None ->
  handleEvent_switch (VStr "file-search") cnt w
  = (Throw (TypeError "search"), w).
Proof.
  intros Hh Hf. cbn. unfold file_search.
  rewrite (bind_normal _ _ _ _ _ Hh).
  unfold bind, gets. rewrite Hf. reflexivity.
Qed.

End Listener.



Lemma quicklook_missing_file_throws_witness :
  message_listener [] Sample.parseInt Sample.dirname Sample.renderer
    (Sample.envelope "ql-get-file" (Some (VNum 7)) None) Sample.world
  = (Throw (TypeError "withContent"), Sample.world).
Proof. apply quicklook_missing_file_throws; reflexivity. Defined.

(** ** The citation channels *)

(** C6. With no citation engine loaded, a [getCitation] query throws a
    [TypeError] and sets no reply, where the [typo] listener and the
    [citeproc-get-ids] command test for the missing subsystem first. *)
Theorem getCitation_without_engine_throws
    (event : Event) (idList : value) (w : World) :
  citeproc w = None ->
  getCitation_listener event idList w = (Throw (TypeError "getCitation"), w).
Proof.
  intros H. unfold getCitation_listener, bind, gets. rewrite H. reflexivity.
Qed.

Lemma getCitation_without_engine_throws_witness :
  getCitation_listener Sample.renderer (VArr [VStr "doe2019"]) Sample.world
  = (Throw (TypeError "getCitation"), Sample.world).
Proof. apply getCitation_without_engine_throws. reflexivity. Defined.

Lemma updateItems_without_engine_throws event idList w :
  citeproc w = None ->
  updateItems_listener event idList w = (Throw (TypeError "updateItems"), w).
Proof.
  intros H. unfold updateItems_listener, bind, gets. rewrite H. reflexivity.
Qed.

(** The guarded sibling: [citeproc-get-ids] answers the empty list. *)
Lemma citeproc_get_ids_without_engine cnt w :
  citeproc w = None ->
  handleEvent_switch (VStr "citeproc-get-ids") cnt w
  = (send (VStr "citeproc-ids") (VArr []) ;; ret tt) w.
Proof.
  intros H. cbn. now rewrite H.
Qed.

(** ** The dispatcher *)

Lemma in_table_false_cons cmd s table :
  in_table cmd (s :: table) = false ->
  is_str cmd s = false /\ in_table cmd table = false.
Proof.
  unfold in_table. cbn. intros H. now apply orb_false_iff in H.
Qed.

(** Walks down a table that does not contain the command, rewriting each
    comparison of the switch to [false]. *)
Ltac split_table H :=
  repeat match type of H with
    | in_table _ (_ :: _) = false =>
        let Hs := fresh "Hs" in
        apply in_table_false_cons in H; destruct H as [Hs H]; try rewrite Hs
    end.


Lemma handleEvent_switch_default cmd cnt w :
  in_table cmd event_table = false ->
  handleEvent_switch cmd cnt w = (Normal tt, emit (ConsoleLog "system.unknown_command" cmd) w).
Proof.
  intros H. unfold event_table in H. unfold handleEvent_switch.
  split_table H. reflexivity.
Qed.

Lemma runCall_default cmd arg w :
  in_table cmd call_table = false ->
  runCall cmd arg w = (Normal VNull, emit (ConsoleLog "system.unknown_command" cmd) w).
Proof.
  intros H. unfold call_table in H. unfold runCall.
  split_table H. reflexivity.
Qed.

Lemma runCommand_unknown registry cmd cnt w :
  responder registry cmd = None ->
  runCommand registry cmd cnt w = (Throw (UnknownCommand cmd), w).
Proof.
  unfold responder, runCommand. intros H. rewrite H. reflexivity.
Qed.

Lemma handleEvent_after_throw registry cmd cnt w e w' :
  runCommand registry cmd cnt w = (Throw e, w') ->
  handleEvent registry cmd cnt w
  = (handleEvent_switch cmd cnt ;; ret VUndefined) w'.
Proof.
  intros H. unfold handleEvent, try_catch. rewrite H. reflexivity.
Qed.

(** C5. A command that neither the registry nor a built-in table knows:
    [runCall] returns [null] and [handleEvent] returns without a value, and
    each leaves the world as it was but for exactly one
    [console.log] of the unknown-command diagnostic. *)
Theorem unknown_command_logged_once
    (registry : list Handler) (cmd cnt : value) (w : World) :
  responder registry cmd = None ->
  in_table cmd event_table = false ->
  in_table cmd call_table = false ->
  runCall cmd cnt w
  = (Normal VNull, emit (ConsoleLog "system.unknown_command" cmd) w) /\
  handleEvent registry cmd cnt w
  = (Normal VUndefined, emit (ConsoleLog "system.unknown_command" cmd) w).
Proof.
  intros Hr He Hc. split.
  - now apply runCall_default.
  - rewrite (handleEvent_after_throw _ _ _ _ _ _ (runCommand_unknown _ _ cnt w Hr)).
    now rewrite (bind_normal _ _ _ _ _ (handleEvent_switch_default _ cnt w He)).
Qed.

Lemma unknown_command_logged_once_witness :
  runCall (VStr "fly") VNull Sample.world
  = (Normal VNull,
     emit (ConsoleLog "system.unknown_command" (VStr "fly")) Sample.world) /\
  handleEvent [Sample.failing] (VStr "fly") VNull Sample.world
  = (Normal VUndefined,
     emit (ConsoleLog "system.unknown_command" (VStr "fly")) Sample.world).
Proof. apply unknown_command_logged_once; reflexivity. Defined.

Lemma is_str_true v lit : is_str v lit = true -> v = VStr lit.
Proof.
  destruct v; cbn; try discriminate.
  intros H. apply String.eqb_eq in H. now subst.
Qed.

(** C1, as the code has it.  When the handler that answers to a command
    throws, [handleEvent] discards the error and runs the built-in switch
    on the same command, from the world the handler left behind; the
    outcome is that of the switch.  ([runCall] takes no registry at all.) *)
Theorem handler_failure_falls_through
    (registry : list Handler) (cmd cnt : value) (w w' : World)
    (h : Handler) (e : exn) :
  responder registry cmd = Some h ->
  run h cnt w = (Throw e, w') ->
  handleEvent registry cmd cnt w
  = (handleEvent_switch cmd cnt ;; ret VUndefined) w'.
Proof.
  intros Hr He. apply handleEvent_after_throw with (e := e).
  unfold responder in Hr. unfold runCommand. now rewrite Hr.
Qed.

Lemma handler_failure_falls_through_witness :
  handleEvent [Sample.failing] (VStr "dir-open") VNull Sample.world
  = (Normal VUndefined, emit (Call "this._app" "open" []) Sample.world).
Proof.
  rewrite (handler_failure_falls_through [Sample.failing] (VStr "dir-open")
             VNull Sample.world Sample.world Sample.failing
             (HandlerError (VStr "cannot open")) eq_refl eq_refl).
  reflexivity.
Defined.

(** C1 fails as worded: the handler of [dir-open] throws, yet
    [handleEvent] returns normally, having run the built-in [dir-open]. *)
Lemma handler_failure_is_swallowed :
  ~ handler_failure_propagates [Sample.failing] (VStr "dir-open") VNull
      Sample.world.
Proof.
  intros H.
  specialize (H Sample.failing (HandlerError (VStr "cannot open"))
                Sample.world eq_refl eq_refl).
  discriminate H.
Qed.

(** ** Correlated calls *)

Lemma runCall_returns cmd arg w :
  is_str cmd "request-files" && nullish arg = false ->
  exists v w', runCall cmd arg w = (Normal v, w').
Proof.
  intros H. unfold runCall.
  repeat match goal with
    | |- context [if is_str cmd ?s then _ else _] =>
        let E := fresh "E" in destruct (is_str cmd s) eqn:E
    end;
    try match goal with
      | H : true && nullish arg = false |- _ =>
          destruct arg; try discriminate H
      end;
    unfold win_maximise, win_minimise, win_close, bind, gets;
    try destruct (focused w) as [[|]|];
    do 2 eexists; reflexivity.
Qed.





(** ** [get-paths] *)

Lemma trace_emit_all es w : trace (emit_all es w) = (trace w ++ es)%list.
Proof.
  revert w. induction es as [|e es IH]; intros w; cbn.
  - now rewrite app_nil_r.
  - unfold emit_all in IH. rewrite IH, trace_emit, <- app_assoc. reflexivity.
Qed.

Lemma get_paths_with_window w wc :
  window (app w) = Some wc ->
  get_paths w = (Normal tt, emit_all (paths_pushes wc (app w)) w).
Proof.
  intros Hw. unfold get_paths, paths_pushes, bind, gets.
  rewrite (send_with_window _ _ _ wc Hw).
  rewrite (send_with_window _ _ _ wc) by exact Hw.
  rewrite (send_with_window _ _ _ wc) by exact Hw.
  cbn [app emit].
  destruct (getCurrentFile (app w)) as [f|];
    destruct (getCurrentDir (app w)) as [d|]; cbn [option_map hash_or_null];
    try rewrite (send_with_window _ _ _ wc) by exact Hw; reflexivity.
Qed.

(** C7, as the code has it.  When [runCommand] fails for [get-paths], so
    that the built-in runs, and there is an active window, the effects
    are exactly the pushes [paths-update], [file-set-current],
    [dir-set-current] and, if a file is open, [file-open] with that file's
    content, in this order and to that window; the two markers carry the
    hash of the open file and of the current directory, or [null]. *)
Theorem get_paths_pushes_in_order
    (registry : list Handler) (cnt : value) (w w' : World) (e : exn)
    (wc : nat) :
  runCommand registry (VStr "get-paths") cnt w = (Throw e, w') ->
  window (app w') = Some wc ->
  handleEvent registry (VStr "get-paths") cnt w
  = (Normal VUndefined, emit_all (paths_pushes wc (app w')) w') /\
  trace (emit_all (paths_pushes wc (app w')) w')
  = (trace w' ++ paths_pushes wc (app w'))%list.
Proof.
  intros Hr Hw. split; [| apply trace_emit_all].
  rewrite (handleEvent_after_throw _ _ _ _ _ _ Hr).
  change (handleEvent_switch (VStr "get-paths") cnt) with get_paths.
  now rewrite (bind_normal _ _ _ _ _ (get_paths_with_window w' wc Hw)).
Qed.

Lemma get_paths_pushes_in_order_witness :
  trace (snd (handleEvent [] (VStr "get-paths") (VObj []) Sample.world))
  = [Send 1 "message" (PMessage (push (VStr "paths-update")
                                      (VArr [VStr "/notes"])));
     Send 1 "message" (PMessage (push (VStr "file-set-current") (VNum 42)));
     Send 1 "message" (PMessage (push (VStr "dir-set-current") (VNum 7)));
     Send 1 "message" (PMessage (push (VStr "file-open")
                                      (VObj (withContent Sample.note))))].
Proof.
  destruct (get_paths_pushes_in_order [] (VObj []) Sample.world Sample.world
              (UnknownCommand (VStr "get-paths")) 1 eq_refl eq_refl)
    as [Hrun Htrace].
  rewrite Hrun. cbn [snd]. rewrite Htrace. reflexivity.
Defined.

(** C7 fails as worded: before any window exists a file can be open, and
    [get-paths] then pushes nothing. *)
Lemma get_paths_without_window_pushes_nothing :
  ~ get_paths_always_pushes [] (VObj []) Sample.early.
Proof.
  intros H. destruct (H eq_refl) as [wc Htrace].
  vm_compute in Htrace. discriminate Htrace.
Qed.

(** * Further properties of the router *)

(** ** Effects and failures, compositionally *)

Lemma app_emit_all es w : app (emit_all es w) = app w.
Proof.
  revert w. induction es as [|e es IH]; intros w; cbn; [reflexivity|].
  unfold emit_all in IH. now rewrite IH.
Qed.

Lemma emit_all_app es es' w :
  emit_all (es ++ es') w = emit_all es' (emit_all es w).
Proof. unfold emit_all. apply fold_left_app. Qed.

Lemma emits_ret {A} P (a : A) : emits P (ret a).
Proof. intros w. now exists []. Qed.

Lemma emits_throw {A} P e : emits P (@throw A e).
Proof. intros w. now exists []. Qed.

Lemma emits_gets {A} P (f : World -> A) : emits P (gets f).
Proof. intros w. now exists []. Qed.

Lemma emits_perform P e : (forall a, P a e = true) -> emits P (perform e).
Proof.
  intros H w. exists [e]. split; [reflexivity|]. cbn. now rewrite H.
Qed.

Lemma emits_bind {A B} P (m : M A) (k : A -> M B) :
  emits P m -> (forall a, emits P (k a)) -> emits P (bind m k).
Proof.
  intros Hm Hk w. unfold bind. destruct (Hm w) as (es & E & F).
  destruct (m w) as [[a|e] w1]; cbn in E; subst w1.
  - destruct (Hk a (emit_all es w)) as (es' & E' & F').
    exists (es ++ es')%list. rewrite emit_all_app, forallb_app.
    rewrite app_emit_all in F'. now rewrite F, F'.
  - now exists es.
Qed.

Lemma emits_send P cmd cnt :
  (forall a wc m,
      window a = Some wc -> P a (Send wc "message" (PMessage m)) = true) ->
  emits P (send cmd cnt).
Proof.
  intros H w. unfold send, bind, gets.
  destruct (window (app w)) as [wc|] eqn:E.
  - eexists [_]. split; [reflexivity|]. cbn. now rewrite (H _ _ _ E).
  - now exists [].
Qed.

Lemma event_effect_send a wc m :
  window a = Some wc ->
  event_effect a (Send wc "message" (PMessage m)) = true.
Proof. intros H. cbn. now rewrite H, Nat.eqb_refl. Qed.

Lemma returns_ret {A} (a : A) : returns (ret a).
Proof. intros w. now exists a, w. Qed.

Lemma returns_gets {A} (f : World -> A) : returns (gets f).
Proof. intros w. now exists (f w), w. Qed.

Lemma returns_perform e : returns (perform e).
Proof. intros w. now exists tt, (emit e w). Qed.

Lemma returns_send cmd cnt : returns (send cmd cnt).
Proof.
  intros w. unfold send, bind, gets.
  destruct (window (app w)); do 2 eexists; reflexivity.
Qed.

Lemma returns_bind {A B} (m : M A) (k : A -> M B) :
  returns m -> (forall a, returns (k a)) -> returns (bind m k).
Proof.
  intros Hm Hk w. destruct (Hm w) as (a & w' & E). unfold bind. rewrite E.
  apply Hk.
Qed.

(** Splits a computation along its binds and case distinctions. *)
Ltac emits_step side :=
  first
    [ apply emits_ret | apply emits_throw | apply emits_gets
    | apply emits_perform; intros; reflexivity
    | apply emits_send; side
    | apply emits_bind; [| intros ]
    | match goal with
      | |- emits _ (match ?x with _ => _ end) => destruct x
      end ].

Ltac returns_step :=
  first
    [ apply returns_ret | apply returns_gets | apply returns_perform
    | apply returns_send
    | apply returns_bind; [| intros ]
    | match goal with
      | |- returns (match ?x with _ => _ end) => destruct x
      end ].

Ltac unfold_builtins :=
  unfold get_paths, file_search, toggle, win_maximise, win_minimise,
    win_close, call, unknown_command, deref, get_prop.

Ltac case_switch cmd :=
  repeat match goal with
    | |- context [if is_str cmd ?s then _ else _] =>
        let E := fresh "E" in destruct (is_str cmd s) eqn:E
    end.

(** ** What the two tables can and cannot do *)

(** X1. Whatever the command and argument, [runCall] only calls
    collaborators or logs the unknown-command diagnostic: it never sends
    on a channel, never starts a drag and never writes an error. *)
Theorem runCall_never_sends (cmd arg : value) :
  emits call_effect (runCall cmd arg).
Proof.
  unfold runCall. case_switch cmd; unfold_builtins;
    repeat emits_step idtac.
Qed.

Lemma switch_emits_event_effects cmd cnt :
  emits event_effect (handleEvent_switch cmd cnt).
Proof.
  unfold handleEvent_switch. case_switch cmd; unfold_builtins;
    repeat emits_step ltac:(intros; now apply event_effect_send).
Qed.

(** X2. Every effect of the built-in event table is a collaborator call,
    the unknown-command diagnostic, or a message envelope sent on the
    [message] channel of the active window; nothing is ever sent to
    another web contents or on another channel. *)
Theorem handleEvent_switch_effects (cmd cnt : value) :
  emits event_effect (handleEvent_switch cmd cnt).
Proof.
  unfold handleEvent_switch. case_switch cmd; unfold_builtins;
    repeat emits_step ltac:(intros; now apply event_effect_send).
Qed.

Lemma event_effect_no_window a e :
  window a = None -> event_effect a e = true -> is_send e = false.
Proof.
  intros Hw. destruct e as [| | wc ch [v|m] | |]; cbn; try easy.
  now rewrite Hw.
Qed.

(** X3. While there is no active window, no built-in event sends
    anything, whatever the command and content. *)
Theorem handleEvent_switch_silent_without_window (cmd cnt : value) (w : World) :
  window (app w) = None ->
  exists es,
    snd (handleEvent_switch cmd cnt w) = emit_all es w /\
    forallb (fun e => negb (is_send e)) es = true.
Proof.
  intros Hw. destruct (switch_emits_event_effects cmd cnt w) as (es & E & F).
  exists es. split; [exact E|].
  rewrite forallb_forall in *. intros e He.
  now rewrite (event_effect_no_window _ _ Hw (F e He)).
Qed.

Lemma handleEvent_switch_silent_without_window_witness :
  exists es,
    snd (handleEvent_switch (VStr "get-paths") VNull Sample.early)
    = emit_all es Sample.early /\
    forallb (fun e => negb (is_send e)) es = true.
Proof.
  apply handleEvent_switch_silent_without_window. reflexivity.
Defined.

(** X4. Only four built-in events can fail: apart from [win-menu],
    [file-get-quicklook], [file-search] and [citeproc-make-bibliography],
    the switch returns normally for every command, content and world. *)
Theorem handleEvent_switch_returns (cmd cnt : value) :
  in_table cmd fallible_events = false ->
  returns (handleEvent_switch cmd cnt).
Proof.
  intros H. unfold in_table, fallible_events in H. cbn [existsb] in H.
  unfold handleEvent_switch. case_switch cmd; try discriminate H;
    unfold_builtins; repeat returns_step.
Qed.

Lemma handleEvent_switch_returns_witness :
  returns (handleEvent_switch (VStr "update-config") VNull).
Proof. apply handleEvent_switch_returns. reflexivity. Defined.

(** X5. [runCall] throws exactly when the command is [request-files] and
    the argument is [undefined] or [null]. *)
Theorem runCall_throws_iff (cmd arg : value) (w : World) :
  (exists e w', runCall cmd arg w = (Throw e, w')) <->
  is_str cmd "request-files" && nullish arg = true.
Proof.
  split.
  - intros (e & w' & H).
    destruct (is_str cmd "request-files" && nullish arg) eqn:E; [reflexivity|].
    destruct (runCall_returns cmd arg w E) as (v & w'' & H').
    rewrite H' in H. discriminate H.
  - intros H. apply andb_true_iff in H. destruct H as [Hc Hn].
    apply is_str_true in Hc. subst cmd.
    destruct arg; try discriminate Hn; do 2 eexists; reflexivity.
Qed.

(** X6. A command of the event table never produces the unknown-command
    diagnostic, nor any other [console.log]. *)
Theorem handleEvent_switch_known_not_logged (cmd cnt : value) :
  in_table cmd event_table = true ->
  emits no_log (handleEvent_switch cmd cnt).
Proof.
  intros H. unfold in_table, event_table in H. cbn [existsb] in H.
  unfold handleEvent_switch. case_switch cmd; try discriminate H;
    unfold_builtins; repeat emits_step ltac:(intros; reflexivity).
Qed.

Lemma handleEvent_switch_known_not_logged_witness :
  emits no_log (handleEvent_switch (VStr "file-search") VNull).
Proof. apply handleEvent_switch_known_not_logged. reflexivity. Defined.

(** X7. A command of the call table never produces the unknown-command
    diagnostic, nor any other [console.log]. *)
Theorem runCall_known_not_logged (cmd arg : value) :
  in_table cmd call_table = true ->
  emits no_log (runCall cmd arg).
Proof.
  intros H. unfold in_table, call_table in H. cbn [existsb] in H.
  unfold runCall. case_switch cmd; try discriminate H;
    unfold_builtins; repeat emits_step ltac:(intros; reflexivity).
Qed.

Lemma runCall_known_not_logged_witness :
  emits no_log (runCall (VStr "make-standalone") VNull).
Proof. apply runCall_known_not_logged. reflexivity. Defined.

(** ** [send] and the push facade, in any world *)


(** X9. With an active window, [notify] and [notifyError] push the
    payload they are given, unmodified, under [notify] and
    [notify-error], and [updateFile] pushes [file-replace] with the hash
    and the metadata of the file; each is a single message to the active
    window. *)
Theorem push_facade (msg : value) (file : File) (w : World) (wc : nat) :
  window (app w) = Some wc ->
  msg <> VUndefined ->
  notify msg w
  = (Normal tt, emit (Send wc "message" (PMessage (push (VStr "notify") msg))) w) /\
  notifyError msg w
  = (Normal tt,
     emit (Send wc "message" (PMessage (push (VStr "notify-error") msg))) w) /\
  updateFile file w
  = (Normal tt,
     emit (Send wc "message"
             (PMessage (push (VStr "file-replace")
                          (VObj [("hash", VNum (hash file));
                                 ("file", VObj (getMetadata file))])))) w).
Proof.
  intros Hw Hm.
  assert (or_empty msg = msg) as Hd by (destruct msg; try reflexivity; now destruct Hm).
  unfold notify, notifyError, updateFile.
  repeat split;
    rewrite (bind_normal _ _ _ _ _ (send_with_window _ _ _ wc Hw));
    cbn [or_empty]; now rewrite ?Hd.
Qed.

Lemma push_facade_witness :
  notifyError (VObj [("title", VStr "Pandoc")]) Sample.world
  = (Normal tt,
     emit (Send 1 "message"
             (PMessage (push (VStr "notify-error")
                             (VObj [("title", VStr "Pandoc")]))))
          Sample.world).
Proof.
  apply (push_facade (VObj [("title", VStr "Pandoc")]) Sample.note
           Sample.world 1 eq_refl).
  discriminate.
Defined.

(** ** The [typo] channel, for every query *)


(** ** The [message] listener, end to end *)

Section Classification.

Variable registry : list Handler.
Variable parseInt : value -> value.
Variable dirname : string.





End Classification.





(** ** Built-in commands *)

(** X15. The three window controls do the same in both tables: for
    [win-maximise], [win-minimise] and [win-close], [runCall] and the
    switch of [handleEvent] leave the same world, neither throws, and
    [runCall] returns [undefined]. *)
Theorem window_controls_agree (cmd arg cnt : value) (w : World) :
  in_table cmd window_controls = true ->
  exists w',
    runCall cmd arg w = (Normal VUndefined, w') /\
    handleEvent_switch cmd cnt w = (Normal tt, w').
Proof.
  intros H. unfold in_table, window_controls in H. cbn [existsb] in H.
  destruct (is_str cmd "win-maximise") eqn:E1;
    [| destruct (is_str cmd "win-minimise") eqn:E2;
       [| destruct (is_str cmd "win-close") eqn:E3; [| discriminate H]]];
    match goal with
    | E : is_str cmd _ = true |- _ => apply is_str_true in E; subst cmd
    end;
    cbn; unfold win_maximise, win_minimise, win_close, bind, gets;
    destruct (focused w) as [[|]|]; eexists; split; reflexivity.
Qed.

Lemma window_controls_agree_witness :
  exists w',
    runCall (VStr "win-close") VNull Sample.world = (Normal VUndefined, w') /\
    handleEvent_switch (VStr "win-close") VNull Sample.world = (Normal tt, w').
Proof. apply window_controls_agree. reflexivity. Defined.

(** X16. While no window has the focus, the three window controls do
    nothing at all, in either table. *)
Theorem window_controls_need_focus (cmd arg cnt : value) (w : World) :
  focused w = None ->
  in_table cmd window_controls = true ->
  runCall cmd arg w = (Normal VUndefined, w) /\
  handleEvent_switch cmd cnt w = (Normal tt, w).
Proof.
  intros Hf H. unfold in_table, window_controls in H. cbn [existsb] in H.
  destruct (is_str cmd "win-maximise") eqn:E1;
    [| destruct (is_str cmd "win-minimise") eqn:E2;
       [| destruct (is_str cmd "win-close") eqn:E3; [| discriminate H]]];
    match goal with
    | E : is_str cmd _ = true |- _ => apply is_str_true in E; subst cmd
    end;
    cbn; unfold win_maximise, win_minimise, win_close, bind, gets;
    rewrite Hf; split; reflexivity.
Qed.

Lemma window_controls_need_focus_witness :
  runCall (VStr "win-maximise") VNull Sample.world
  = (Normal VUndefined, Sample.world) /\
  handleEvent_switch (VStr "win-maximise") VNull Sample.world
  = (Normal tt, Sample.world).
Proof. apply window_controls_need_focus; reflexivity. Defined.

(** X17. [toggle-theme] sets [darkTheme] to the boolean negation of its
    current value (so to [true] when it is unset), and then pushes
    exactly one [config-update], with the empty object as content, if
    there is a window; [toggle-snippets] does the same for [snippets]. *)
Theorem toggle_sets_negation_then_pushes (cnt : value) (w : World) :
  let update :=
    match window (app w) with
    | Some wc =>
        [Send wc "message" (PMessage (push (VStr "config-update") (VObj [])))]
    | None => []
    end in
  let set key :=
    Call "global.config" "set"
         [VStr key; VBool (negb (truthy (config_get (config w) (VStr key))))] in
  handleEvent_switch (VStr "toggle-theme") cnt w
  = (Normal tt, emit_all (set "darkTheme" :: update) w) /\
  handleEvent_switch (VStr "toggle-snippets") cnt w
  = (Normal tt, emit_all (set "snippets" :: update) w).
Proof.
  cbn. unfold toggle, bind, gets, call, perform, send.
  cbn. destruct (window (app w)); split; reflexivity.
Qed.

Lemma lookup_assign_same k v props : lookup k (assign k v props) = Some v.
Proof.
  induction props as [|[k' v'] rest IH]; cbn.
  - now rewrite String.eqb_refl.
  - destruct (String.eqb k k') eqn:E; cbn; rewrite ?String.eqb_refl, ?E; auto.
Qed.

Lemma lookup_assign_other k k' v props :
  k' <> k -> lookup k' (assign k v props) = lookup k' props.
Proof.
  intros Hne. apply String.eqb_neq in Hne.
  induction props as [|[k0 v0] rest IH]; cbn.
  - now rewrite Hne.
  - destruct (String.eqb k k0) eqn:E; cbn.
    + apply String.eqb_eq in E. subst k0. now rewrite Hne.
    + now rewrite IH.
Qed.

(** X18. [get-preferences] pushes one [preferences] object to the active
    window: the configuration with [supportedLangs] and [availableDicts]
    set to the store's supported languages and dictionaries, replacing
    entries of those names, and every other key as the configuration has
    it. *)
Theorem get_preferences_payload (cnt : value) (w : World) (wc : nat) :
  window (app w) = Some wc ->
  exists props,
    handleEvent_switch (VStr "get-preferences") cnt w
    = (Normal tt,
       emit (Send wc "message"
               (PMessage (push (VStr "preferences") (VObj props)))) w) /\
    lookup "supportedLangs" props = Some (getSupportedLangs (config w)) /\
    lookup "availableDicts" props = Some (getDictionaries (config w)) /\
    forall k, k <> "supportedLangs" -> k <> "availableDicts" ->
              lookup k props = lookup k (getConfig (config w)).
Proof.
  intros Hw. eexists. split; [| split; [| split]].
  - cbn. now rewrite (bind_normal _ _ _ _ _ (send_with_window _ _ _ wc Hw)).
  - rewrite lookup_assign_other by discriminate. apply lookup_assign_same.
  - apply lookup_assign_same.
  - intros k H1 H2. now rewrite !lookup_assign_other.
Qed.

Lemma get_preferences_payload_witness :
  exists props,
    handleEvent_switch (VStr "get-preferences") VNull Sample.world
    = (Normal tt,
       emit (Send 1 "message"
               (PMessage (push (VStr "preferences") (VObj props))))
            Sample.world) /\
    lookup "supportedLangs" props = Some (VArr [VStr "en-GB"]) /\
    lookup "availableDicts" props = Some (VArr []) /\
    forall k, k <> "supportedLangs" -> k <> "availableDicts" ->
              lookup k props = lookup k [("darkTheme", VBool false)].
Proof. apply (get_preferences_payload VNull Sample.world 1). reflexivity. Defined.

(** X19. [update-config] hands the patch to [bulkSet], then pushes
    [config-update] if there is a window, and only then reloads the
    dictionary, and only if one is loaded; it never throws. *)
Theorem update_config_reloads_loaded_dictionary (cnt : value) (w : World) :
  handleEvent_switch (VStr "update-config") cnt w
  = (Normal tt,
     emit_all
       ([Call "this._app.getConfig()" "bulkSet" [cnt]]
        ++ match window (app w) with
           | Some wc =>
               [Send wc "message"
                     (PMessage (push (VStr "config-update") (VObj [])))]
           | None => []
           end
        ++ match dict (app w) with
           | Some _ => [Call "this._app.dict" "reload" []]
           | None => []
           end)%list
       w).
Proof.
  cbn. unfold bind, gets, call, perform, send, bind, gets, perform. cbn.
  destruct (window (app w)); cbn; destruct (dict (app w)); reflexivity.
Qed.

(** X20. [force-open] with no exact match does nothing and does not
    throw; with a match it asks the application to send the matched
    file, by its hash. *)
Theorem force_open_tolerates_no_match (cnt : value) (w : World) :
  handleEvent_switch (VStr "force-open") cnt w
  = (Normal tt,
     match findExact (app w) cnt with
     | Some f => emit (Call "this._app" "sendFile" [VNum (hash f)]) w
     | None => w
     end).
Proof.
  cbn. unfold bind, gets. destruct (findExact (app w) cnt); reflexivity.
Qed.

(** X21. [file-search] on a content object whose [hash] identifies a
    file pushes one [file-search-result] to the active window, carrying
    that same hash and what the file's search returns for the content's
    [terms]. *)
Theorem file_search_pushes_result
    (props : list (string * value)) (f : File) (w : World) (wc : nat) :
  findFile (app w) (prop (lookup "hash" props)) = Some f ->
  window (app w) = Some wc ->
  handleEvent_switch (VStr "file-search") (VObj props) w
  = (Normal tt,
     emit (Send wc "message"
             (PMessage
                (push (VStr "file-search-result")
                   (VObj [("hash", prop (lookup "hash" props));
                          ("result", search f (prop (lookup "terms" props)))]))))
          w).
Proof.
  intros Hf Hw. cbn. unfold prop in Hf. rewrite Hf. cbn.
  now rewrite (bind_normal _ _ _ _ _ (send_with_window _ _ _ wc Hw)).
Qed.

Lemma file_search_pushes_result_witness :
  handleEvent_switch (VStr "file-search")
    (VObj [("hash", VNum 42); ("terms", VArr [VStr "milk"])]) Sample.world
  = (Normal tt,
     emit (Send 1 "message"
             (PMessage
                (push (VStr "file-search-result")
                   (VObj [("hash", VNum 42); ("result", VArr [])]))))
          Sample.world).
Proof.
  apply (file_search_pushes_result
           [("hash", VNum 42); ("terms", VArr [VStr "milk"])] Sample.note
           Sample.world 1);
    reflexivity.
Defined.

(** ** The command autoloader *)

Lemma filter_filter {A} (p q : A -> bool) l :
  filter p (filter q l) = filter (fun x => q x && p x) l.
Proof.
  induction l as [|x l IH]; cbn; [reflexivity|].
  destruct (q x); cbn; [destruct (p x)|]; now rewrite IH.
Qed.

Lemma autoload_loop_spec {C} (instantiate : string -> C) dirs cmd :
  autoload_loop C instantiate dirs cmd
  = (cmd ++ map instantiate
              (filter (fun f => negb (is_builtin_module f)) dirs))%list.
Proof.
  revert cmd. induction dirs as [|file rest IH]; intros cmd; cbn.
  - now rewrite app_nil_r.
  - destruct (is_builtin_module file); cbn; rewrite IH; [reflexivity|].
    now rewrite <- app_assoc.
Qed.

Lemma autoload_unfold {C} (instantiate : string -> C) listing :
  autoload C instantiate listing
  = map instantiate
        (filter (fun f => is_script f && negb (is_builtin_module f)) listing).
Proof.
  unfold autoload. now rewrite autoload_loop_spec, filter_filter.
Qed.

(** X22. The autoloader returns one command per entry of the directory
    that is a script and is neither [_autoload.js] nor
    [zettlr-command.js], in the order of the directory listing; loading
    a listing in two parts gives the two results one after the other. *)
Theorem autoload_keeps_order {C} (instantiate : string -> C)
    (listing more : list string) :
  autoload C instantiate listing
  = map instantiate
        (filter (fun f => is_script f && negb (is_builtin_module f)) listing) /\
  autoload C instantiate (listing ++ more)
  = (autoload C instantiate listing ++ autoload C instantiate more)%list.
Proof.
  split; [apply autoload_unfold|].
  now rewrite !autoload_unfold, filter_app, map_app.
Qed.

(** X23. What the autoloader loads: exactly the entries of the listing
    that are scripts and are not one of the two built-in modules. *)
Theorem autoload_loads_exactly (listing : list string) (file : string) :
  In file (autoload string (fun f => f) listing) <->
  In file listing /\ is_script file = true /\
  file <> "_autoload.js" /\ file <> "zettlr-command.js".
Proof.
  rewrite autoload_unfold, map_id, filter_In, andb_true_iff.
  unfold is_builtin_module.
  rewrite negb_true_iff, orb_false_iff, !String.eqb_neq. tauto.
Qed.

(** X24. An entry counts as a script exactly when it ends in [.js] or
    in [.jsx]. *)
Theorem is_script_iff_suffix (elem : string) :
  is_script elem = true <->
  exists stem, elem = stem ++ ".js" \/ elem = stem ++ ".jsx".
Proof.
  split.
  - induction elem as [|c rest IH]; intros H.
    + discriminate H.
    + cbn [is_script] in H.
      apply orb_true_iff in H. destruct H as [H|H].
      * apply orb_true_iff in H. destruct H as [H|H];
          apply String.eqb_eq in H; exists ""; rewrite H; auto.
      * destruct (IH H) as (stem & [E|E]); exists (String c stem);
          rewrite E; auto.
  - intros (stem & H). revert elem H.
    induction stem as [|c stem IH]; intros elem H.
    + destruct H as [H|H]; subst elem; reflexivity.
    + assert (exists rest, elem = String c rest /\
                           (rest = stem ++ ".js" \/ rest = stem ++ ".jsx"))
        as (rest & E & Hr)
        by (destruct H as [H|H]; subst elem; cbn; eexists;
            (split; [reflexivity | auto])).
      subst elem. cbn [is_script]. rewrite (IH rest Hr).
      apply orb_true_r.
Qed.

(** The sample directory yields [export.js] and [file-new.jsx]. *)
Lemma autoload_fixture :
  autoload string (fun f => f) Fixture.listing = ["export.js"; "file-new.jsx"].
Proof. reflexivity. Qed.
